(** * Pomodoro timer of [server.js]: state machine and snapshot computation

    The file embeds the timer logic of [src/server.js]: the module-level
    [timer] object, the helpers [computeRemaining] and [replyWithTimer], and
    the four tool handlers [start_timer], [stop_timer], [edit_timer] and
    [get_timer], together with the completion callback that the handlers
    hand to [setTimeout].  It also embeds the input schema of the tools and
    the request listener of the HTTP server.

    Modelling conventions.
    - JavaScript numbers that hold integers (durations, timestamps) are [Z].
      The handlers compute on them with exact integer arithmetic, which is
      what the doubles of the code do up to [Number.MAX_SAFE_INTEGER].  A
      second set of definitions ([round_double], [js_requestedMs],
      [js_start_timer], [js_computeRemaining]) rounds as the doubles do; the
      two agree within the safe range, and statements about computed
      values carry that bound.
    - [null] is [None].  JavaScript truthiness is written out: a number is
      truthy unless it is 0, a timer handle (Node's [Timeout] object) is
      always truthy, [null] is falsy.
    - [Date.now()] is an explicit argument of every function that calls it.
      A handler that reads the clock twice (once in its body, once inside
      [replyWithTimer]) takes two readings, [now] and [now_r].
    - [setTimeout] / [clearTimeout] act on an explicit scheduler: a finite
      map from live handles to the delay they were scheduled with, and an
      allocation counter that makes every new handle distinct from the
      older ones.  Both closures passed to [setTimeout] (lines 124-130 and
      203-209) have the same body, [completion]. *)

From Stdlib Require Import ZArith Lia.
From stdpp Require Import base option list gmap strings.

Local Open Scope Z_scope.

Module Pomodoro.

(** ** Arguments of the tools (startTimerSchema, editTimerSchema) *)

Record Args := MkArgs {
  minutes : option Z;
  seconds : option Z;
}.

(** [args?.f ?? 0] *)
Definition arg_or_zero (f : Args → option Z) (args : option Args) : Z :=
  default 0 (args ≫= f).

(** [minutes * 60000 + seconds * 1000] with both defaults applied. *)
Definition requestedMs (args : option Args) : Z :=
  arg_or_zero minutes args * 60000 + arg_or_zero seconds args * 1000.

(** ** Timer state (lines 29-35) *)

Record Timer := MkTimer {
  durationMs : Z;
  remainingMs : Z;
  startedAt : option Z;
  isRunning : bool;
  timeoutRef : option nat;
}.

Definition initial_timer : Timer :=
  {| durationMs := 0; remainingMs := 0; startedAt := None;
     isRunning := false; timeoutRef := None |}.

(** ** The scheduler behind setTimeout / clearTimeout *)

Record Scheduler := MkScheduler {
  pending : gmap nat Z;   (* live handle ↦ delay in ms *)
  nextHandle : nat;
}.

Definition setTimeout (delay : Z) (s : Scheduler) : nat * Scheduler :=
  (nextHandle s,
   {| pending := <[nextHandle s := delay]> (pending s);
      nextHandle := S (nextHandle s) |}).

(** [clearTimeout(ref)]: a no-op for [null] and for a handle that is no
    longer live. *)
Definition clearTimeout (ref : option nat) (s : Scheduler) : Scheduler :=
  match ref with
  | Some h => {| pending := delete h (pending s); nextHandle := nextHandle s |}
  | None => s
  end.

Record World := MkWorld {
  timer : Timer;
  sched : Scheduler;
}.

Definition initial_world : World :=
  {| timer := initial_timer;
     sched := {| pending := ∅; nextHandle := 1%nat |} |}.

(** ** JavaScript coercions used by the code *)

(** Truthiness of [timer.startedAt]: [null] and [0] are falsy. *)
Definition truthy_num (v : option Z) : bool :=
  match v with
  | Some n => negb (n =? 0)
  | None => false
  end.

(** [ToNumber] of [timer.startedAt] in [Date.now() - timer.startedAt]. *)
Definition to_number (v : option Z) : Z := default 0 v.

(** Truthiness of [timer.timeoutRef]: an object or [null]. *)
Definition truthy_ref (v : option nat) : bool :=
  match v with
  | Some _ => true
  | None => false
  end.

(** Truthiness of the [message] argument: [undefined] and the empty string
    are falsy. *)
Definition truthy_str (v : option string) : bool :=
  match v with
  | Some s => negb (String.eqb s EmptyString)
  | None => false
  end.

(** [Math.ceil(n / 1000)] on an integer [n]. *)
Definition ceil_div (n k : Z) : Z := - ((- n) `div` k).

(** ** Helpers (lines 41-62) *)

Definition computeRemaining (t : Timer) (now : Z) : Z :=
  if negb (isRunning t) || negb (truthy_num (startedAt t)) then
    remainingMs t
  else
    let elapsed := now - to_number (startedAt t) in
    Z.max (durationMs t - elapsed) 0.

Record Snapshot := MkSnapshot {
  snap_isRunning : bool;
  snap_durationMs : Z;
  snap_remainingMs : Z;
  snap_remainingSeconds : Z;
}.

Record Reply := MkReply {
  content : list string;            (* the text items *)
  structuredContent : Snapshot;
}.

Definition replyWithTimer (message : option string) (now : Z) (t : Timer)
  : Reply :=
  let remaining := computeRemaining t now in
  {| content := if truthy_str message then [default EmptyString message] else [];
     structuredContent :=
       {| snap_isRunning := isRunning t;
          snap_durationMs := durationMs t;
          snap_remainingMs := remaining;
          snap_remainingSeconds := ceil_div remaining 1000 |} |}.

(** ** The completion callback (lines 124-130 and 203-209) *)

Definition completion (t : Timer) : Timer :=
  {| durationMs := durationMs t;
     remainingMs := 0;
     startedAt := None;
     isRunning := false;
     timeoutRef := None |}.

(** The scheduler runs the callback of a live handle [h]; the handle is
    spent.  [None]: [h] is not live, so nothing fires.  When a live callback
    runs is left to the scheduler: the delay is recorded, not enforced. *)
Definition fire (h : nat) (w : World) : option World :=
  match pending (sched w) !! h with
  | Some _ =>
      Some {| timer := completion (timer w);
              sched := {| pending := delete h (pending (sched w));
                          nextHandle := nextHandle (sched w) |} |}
  | None => None
  end.

(** ** Tool handlers *)

Definition invalid_duration_msg : string := "Provide a duration greater than 0.".
Definition not_running_msg : string := "Timer is not running.".

(** start_timer (lines 105-133) *)
Definition start_timer (args : option Args) (now now_r : Z) (w : World)
  : World * Reply :=
  let d := requestedMs args in
  if d <=? 0 then
    (w, replyWithTimer (Some invalid_duration_msg) now_r (timer w))
  else
    let s1 := if truthy_ref (timeoutRef (timer w))
              then clearTimeout (timeoutRef (timer w)) (sched w)
              else sched w in
    let '(h, s2) := setTimeout d s1 in
    let t' := {| durationMs := d;
                 remainingMs := d;
                 startedAt := Some now;
                 isRunning := true;
                 timeoutRef := Some h |} in
    ({| timer := t'; sched := s2 |},
     replyWithTimer (Some "Timer started.") now_r t').

(** stop_timer (lines 151-166) *)
Definition stop_timer (now now_r : Z) (w : World) : World * Reply :=
  if negb (isRunning (timer w)) then
    (w, replyWithTimer (Some not_running_msg) now_r (timer w))
  else
    let remaining := computeRemaining (timer w) now in
    let s1 := clearTimeout (timeoutRef (timer w)) (sched w) in
    let t' := {| durationMs := durationMs (timer w);
                 remainingMs := remaining;
                 isRunning := false;
                 startedAt := None;
                 timeoutRef := None |} in
    ({| timer := t'; sched := s1 |},
     replyWithTimer (Some "Timer stopped.") now_r t').

(** edit_timer (lines 184-213) *)
Definition edit_timer (args : option Args) (now now_r : Z) (w : World)
  : World * Reply :=
  let d := requestedMs args in
  if d <=? 0 then
    (w, replyWithTimer (Some invalid_duration_msg) now_r (timer w))
  else
    let t := timer w in
    let s1 := if truthy_ref (timeoutRef t)
              then clearTimeout (timeoutRef t) (sched w)
              else sched w in
    let started := if isRunning t then Some now else None in
    let '(ref, s2) :=
      if isRunning t
      then let '(h, s2) := setTimeout d s1 in (Some h, s2)
      else (timeoutRef t, s1) in
    let t' := {| durationMs := d;
                 remainingMs := d;
                 startedAt := started;
                 isRunning := isRunning t;
                 timeoutRef := ref |} in
    ({| timer := t'; sched := s2 |},
     replyWithTimer (Some "Timer updated.") now_r t').

(** get_timer (line 231) *)
Definition get_timer (now : Z) (w : World) : World * Reply :=
  (w, replyWithTimer None now (timer w)).

(** ** Runs of the server

    An event is a tool call or the firing of a scheduled completion; a run
    is a list of events, each with the clock reading at which it happens. *)

Inductive Event :=
| StartTimer (args : option Args)
| StopTimer
| EditTimer (args : option Args)
| GetTimer
| Completion (h : nat).

Definition step (now : Z) (e : Event) (w : World) : option World :=
  match e with
  | StartTimer args => Some (start_timer args now now w).1
  | StopTimer => Some (stop_timer now now w).1
  | EditTimer args => Some (edit_timer args now now w).1
  | GetTimer => Some (get_timer now w).1
  | Completion h => fire h w
  end.

Fixpoint exec (run : list (Z * Event)) (w : World) : option World :=
  match run with
  | [] => Some w
  | (now, e) :: run' =>
      match step now e w with
      | Some w' => exec run' w'
      | None => None
      end
  end.

(** Clock readings never go back along the run. *)
Fixpoint chronological_from (lo : Z) (run : list (Z * Event)) : Prop :=
  match run with
  | [] => True
  | (now, _) :: run' => lo ≤ now ∧ chronological_from now run'
  end.

(** The same, with no bound on the first reading. *)
Definition chronological (run : list (Z * Event)) : Prop :=
  match run with
  | [] => True
  | (now, _) :: run' => chronological_from now run'
  end.

(** ** State predicates *)

(** The shape of the states the server can be in: idle with nothing
    scheduled, or running with a start timestamp and exactly the completion
    recorded in [timeoutRef] scheduled, for the configured duration.  Handles
    already handed out lie below the allocation counter. *)
Definition consistent (w : World) : Prop :=
  (∀ h, timeoutRef (timer w) = Some h → (h < nextHandle (sched w))%nat) ∧
  if isRunning (timer w) then
    is_Some (startedAt (timer w)) ∧
    ∃ h, timeoutRef (timer w) = Some h ∧
         pending (sched w) = {[ h := durationMs (timer w) ]}
  else
    startedAt (timer w) = None ∧
    timeoutRef (timer w) = None ∧
    pending (sched w) = ∅.

(** Stored values are ordered, and the run began no later than [lo]. *)
Definition bounded (lo : Z) (t : Timer) : Prop :=
  0 ≤ remainingMs t ∧
  remainingMs t ≤ durationMs t ∧
  ∀ ts, startedAt t = Some ts → ts ≤ lo.

(** A running timer holds a start timestamp that the test
    [!timer.startedAt] accepts. *)
Definition running_has_startedAt (t : Timer) : Prop :=
  isRunning t = true → truthy_num (startedAt t) = true.


(** The two-case formula of the specification (section 4.2), with the
    subtraction read as JavaScript does on an absent [startedAt]. *)
Definition spec_computeRemaining (t : Timer) (now : Z) : Z :=
  if negb (isRunning t) then remainingMs t
  else Z.max (durationMs t - (now - to_number (startedAt t))) 0.

(** ** Sample inputs *)

Definition five_seconds : option Args :=
  Some {| minutes := None; seconds := Some 5 |}.

Definition one_minute : option Args :=
  Some {| minutes := Some 1; seconds := None |}.

Definition ten_seconds : option Args :=
  Some {| minutes := Some 0; seconds := Some 10 |}.

Definition zero_duration : option Args :=
  Some {| minutes := Some 0; seconds := Some 0 |}.

(** A running timer, started at reading 1000 for five seconds. *)
Definition running_world : World :=
  (start_timer five_seconds 1000 1000 initial_world).1.


Definition sample_run : list (Z * Event) :=
  [(1000, StartTimer five_seconds); (2000, EditTimer ten_seconds)].

Definition sample_run_end : World :=
  {| timer := {| durationMs := 10000; remainingMs := 10000;
                 startedAt := Some 2000; isRunning := true;
                 timeoutRef := Some 2%nat |};
     sched := {| pending := {[ 2%nat := 10000 ]}; nextHandle := 3 |} |}.

Definition stopped_run : list (Z * Event) :=
  [(1000, StartTimer five_seconds); (1000, GetTimer); (3500, StopTimer)].

Definition stopped_run_end : World :=
  {| timer := {| durationMs := 5000; remainingMs := 2500;
                 startedAt := None; isRunning := false;
                 timeoutRef := None |};
     sched := {| pending := ∅; nextHandle := 2 |} |}.

(** ** Input schema (lines 18-23)

    [z.number().int().nonnegative().optional()] on an integer field: the
    field is missing or not negative. *)

Definition nonnegative_optional (v : option Z) : bool :=
  match v with
  | Some n => 0 <=? n
  | None => true
  end.

Definition startTimerSchema (a : Args) : bool :=
  nonnegative_optional (minutes a) && nonnegative_optional (seconds a).

Definition editTimerSchema : Args → bool := startTimerSchema.

(** ** The HTTP request listener (lines 241-299)

    The listener is modelled by the calls it makes on [res], in order.  What
    the code gets from outside is an argument: [pathname] is the [pathname]
    of [new URL(req.url, base)] ([None]: the constructor threw), and the
    transport result says how [server.connect] / [transport.handleRequest]
    ended. *)

Definition MCP_PATH : string := "/mcp".

Definition MCP_METHODS : list string := ["POST"; "GET"; "DELETE"].

Record Request := MkRequest {
  req_url : option string;
  req_method : option string;
}.

Inductive ResOp :=
| WriteHead (status : Z) (headers : list (string * string))
| SetHeader (name value : string)
| ResEnd (body : option string)
| OnClose                 (* res.on("close", ...) *)
| HandleRequest.          (* connect the transport and hand it req, res *)

Inductive TransportResult :=
| Handled
| Threw (headersSent : bool).

(** [req.method === s] *)
Definition method_is (m : option string) (s : string) : bool :=
  match m with
  | Some x => String.eqb x s
  | None => false
  end.

(** [MCP_METHODS.has(req.method)] *)
Definition set_has (l : list string) (m : option string) : bool :=
  match m with
  | Some x => existsb (String.eqb x) l
  | None => false
  end.

Definition preflight_headers : list (string * string) :=
  [("Access-Control-Allow-Origin", "*");
   ("Access-Control-Allow-Methods", "POST, GET, OPTIONS");
   ("Access-Control-Allow-Headers", "content-type, mcp-session-id");
   ("Access-Control-Expose-Headers", "Mcp-Session-Id")].

(** The listener passed to [createServer].  [None]: the listener threw
    (at [new URL]) before touching [res]. *)
Definition requestListener (req : Request) (pathname : option string)
  (tr : TransportResult) : option (list ResOp) :=
  if negb (truthy_str (req_url req)) then
    Some [WriteHead 400 []; ResEnd (Some "Missing URL")]
  else
    match pathname with
    | None => None
    | Some p =>
        if method_is (req_method req) "OPTIONS" && String.eqb p MCP_PATH then
          Some [WriteHead 204 preflight_headers; ResEnd None]
        else if method_is (req_method req) "GET" && String.eqb p "/" then
          Some [WriteHead 200 [("content-type", "text/plain")];
                ResEnd (Some "Pomodoro MCP server")]
        else if String.eqb p MCP_PATH && truthy_str (req_method req)
                && set_has MCP_METHODS (req_method req) then
          Some ([SetHeader "Access-Control-Allow-Origin" "*";
                 SetHeader "Access-Control-Expose-Headers" "Mcp-Session-Id";
                 OnClose;
                 HandleRequest] ++
                match tr with
                | Handled => []
                | Threw headersSent =>
                    if negb headersSent
                    then [WriteHead 500 []; ResEnd (Some "Internal server error")]
                    else []
                end)
        else
          Some [WriteHead 404 []; ResEnd (Some "Not Found")]
    end.

Definition is_WriteHead (op : ResOp) : bool :=
  match op with WriteHead _ _ => true | _ => false end.

Definition is_ResEnd (op : ResOp) : bool :=
  match op with ResEnd _ => true | _ => false end.

Definition is_HandleRequest (op : ResOp) : bool :=
  match op with HandleRequest => true | _ => false end.

Definition count_ops (f : ResOp → bool) (ops : list ResOp) : nat :=
  length (List.filter f ops).

(** More sample inputs *)

Definition ninety_seconds : Args := {| minutes := Some 1; seconds := Some 30 |}.

Definition mcp_post : Request :=
  {| req_url := Some "/mcp"; req_method := Some "POST" |}.

Definition mcp_put : Request :=
  {| req_url := Some "/mcp"; req_method := Some "PUT" |}.

(** ** JavaScript numbers

    The definitions above compute with exact integers.  The code computes
    with IEEE-754 doubles, which agree with exact integers as long as
    operands and results lie within [Number.MAX_SAFE_INTEGER]; beyond that a
    result is rounded to the nearest double, ties to even.  The definitions
    below follow the arithmetic of lines 46-47 and 109 as the doubles do it,
    for integer operands; [None] is a result past the largest double
    (the code gets Infinity there). *)

Definition MAX_SAFE_INTEGER : Z := 9007199254740991.

(** The double nearest to the integer [z]. *)
Definition round_double (z : Z) : option Z :=
  let a := Z.abs z in
  if a <=? MAX_SAFE_INTEGER then Some z
  else
    let e := Z.log2 a - 52 in
    let q := a `div` 2 ^ e in
    let r := a `mod` 2 ^ e in
    let half := 2 ^ (e - 1) in
    let q' := if r <? half then q
              else if half <? r then q + 1
              else if Z.even q then q else q + 1 in
    if 2 ^ 1024 <=? q' * 2 ^ e then None else Some (Z.sgn z * (q' * 2 ^ e)).

(** Line 109 on doubles: [minutes * 60000 + seconds * 1000]. *)
Definition js_requestedMs (args : option Args) : option Z :=
  a ← round_double (arg_or_zero minutes args * 60000);
  b ← round_double (arg_or_zero seconds args * 1000);
  round_double (a + b).

(** The state that start_timer leaves (lines 105-130), with the duration
    computed on doubles. *)
Definition js_start_timer (args : option Args) (now : Z) (w : World)
  : option World :=
  d ← js_requestedMs args;
  Some (if d <=? 0 then w
        else
          let s1 := if truthy_ref (timeoutRef (timer w))
                    then clearTimeout (timeoutRef (timer w)) (sched w)
                    else sched w in
          let '(h, s2) := setTimeout d s1 in
          {| timer := {| durationMs := d;
                         remainingMs := d;
                         startedAt := Some now;
                         isRunning := true;
                         timeoutRef := Some h |};
             sched := s2 |}).

(** [computeRemaining] (lines 41-48) on doubles. *)
Definition js_computeRemaining (t : Timer) (now : Z) : option Z :=
  if negb (isRunning t) || negb (truthy_num (startedAt t)) then
    Some (remainingMs t)
  else
    elapsed ← round_double (now - to_number (startedAt t));
    r ← round_double (durationMs t - elapsed);
    Some (Z.max r 0).

(** All the numbers that a snapshot of [t] read at [now] involves are
    within the safe range. *)
Definition safe_reading (t : Timer) (now : Z) : Prop :=
  Z.abs (remainingMs t) ≤ MAX_SAFE_INTEGER ∧
  Z.abs (now - to_number (startedAt t)) ≤ MAX_SAFE_INTEGER ∧
  Z.abs (durationMs t - (now - to_number (startedAt t))) ≤ MAX_SAFE_INTEGER.

(** Sample inputs outside the comfortable cases *)

Definition huge_args : Args :=
  {| minutes := Some 1500000000000; seconds := Some 1 |}.

(** The state the code is in after start_timer with [huge_args] at reading
    1000. *)
Definition huge_timer : Timer :=
  {| durationMs := 90000000000000992; remainingMs := 90000000000000992;
     startedAt := Some 1000; isRunning := true; timeoutRef := Some 1%nat |}.

(** A start at clock reading 0. *)
Definition epoch_run : list (Z * Event) := [(0, StartTimer five_seconds)].

Definition epoch_world : World :=
  {| timer := {| durationMs := 5000; remainingMs := 5000;
                 startedAt := Some 0; isRunning := true;
                 timeoutRef := Some 1%nat |};
     sched := {| pending := {[ 1%nat := 5000 ]}; nextHandle := 2 |} |}.

(** A stop at a clock reading before that of the start. *)
Definition backwards_run : list (Z * Event) :=
  [(1000, StartTimer five_seconds); (999, StopTimer)].

Definition backwards_world : World :=
  {| timer := {| durationMs := 5000; remainingMs := 5001;
                 startedAt := None; isRunning := false;
                 timeoutRef := None |};
     sched := {| pending := ∅; nextHandle := 2 |} |}.

Definition unparsable_request : Request :=
  {| req_url := Some "//"; req_method := Some "GET" |}.

(** ** Basic facts *)

Lemma ceil_div_1000 (n : Z) :
  1000 * (ceil_div n 1000 - 1) < n ≤ 1000 * ceil_div n 1000.
Proof.
  unfold ceil_div.
  pose proof (Z.div_mod (- n) 1000 ltac:(lia)) as Hdm.
  pose proof (Z.mod_pos_bound (- n) 1000 ltac:(lia)) as Hb.
  lia.
Qed.

Lemma computeRemaining_idle t now :
  isRunning t = false → computeRemaining t now = remainingMs t.
Proof. intros Hr. unfold computeRemaining. by rewrite Hr. Qed.

Lemma computeRemaining_falsy t now :
  truthy_num (startedAt t) = false → computeRemaining t now = remainingMs t.
Proof.
  intros Hs. unfold computeRemaining. rewrite Hs.
  by destruct (isRunning t).
Qed.

Lemma computeRemaining_running t now ts :
  isRunning t = true → startedAt t = Some ts → ts ≠ 0 →
  computeRemaining t now = Z.max (durationMs t - (now - ts)) 0.
Proof.
  intros Hr Hs Hts. unfold computeRemaining. rewrite Hr, Hs. simpl.
  by destruct (Z.eqb_spec ts 0).
Qed.

Lemma initial_consistent : consistent initial_world.
Proof. split; [intros h; discriminate | by simpl]. Qed.

Lemma start_timer_consistent args now now_r w :
  consistent w → consistent (start_timer args now now_r w).1.
Proof.
  intros [Hlt Hc]. unfold start_timer.
  destruct (requestedMs args <=? 0); [by split|].
  destruct (isRunning (timer w)).
  - destruct Hc as (_ & h & Hh & Hp). rewrite Hh.
    unfold consistent; simpl.
    split; [intros ? [= <-]; lia|].
    split; [done|]. eexists. split; [done|].
    by rewrite Hp, delete_singleton_eq, insert_empty.
  - destruct Hc as (_ & Hh & Hp). rewrite Hh.
    unfold consistent; simpl.
    split; [intros ? [= <-]; lia|].
    split; [done|]. eexists. split; [done|].
    by rewrite Hp, insert_empty.
Qed.

Lemma stop_timer_consistent now now_r w :
  consistent w → consistent (stop_timer now now_r w).1.
Proof.
  intros [Hlt Hc]. unfold stop_timer.
  destruct (isRunning (timer w)) eqn:Hr; unfold consistent; simpl.
  - destruct Hc as (_ & h & Hh & Hp). rewrite Hh. simpl.
    split; [intros ?; discriminate|].
    by rewrite Hp, delete_singleton_eq.
  - split; [done|]. by rewrite Hr.
Qed.

Lemma edit_timer_consistent args now now_r w :
  consistent w → consistent (edit_timer args now now_r w).1.
Proof.
  intros [Hlt Hc]. unfold edit_timer.
  destruct (requestedMs args <=? 0); [by split|].
  destruct (isRunning (timer w)) eqn:Hr.
  - destruct Hc as (_ & h & Hh & Hp). rewrite Hh.
    unfold consistent; simpl.
    split; [intros ? [= <-]; lia|].
    split; [done|]. eexists. split; [done|].
    by rewrite Hp, delete_singleton_eq, insert_empty.
  - destruct Hc as (_ & Hh & Hp). rewrite Hh.
    unfold consistent; simpl.
    split; [intros ?; discriminate|]. done.
Qed.

Lemma fire_consistent h w w' :
  consistent w → fire h w = Some w' → consistent w'.
Proof.
  intros [Hlt Hc]. unfold fire.
  destruct (pending (sched w) !! h) eqn:Hl; [|discriminate].
  intros [= <-]. unfold consistent; simpl.
  split; [intros ?; discriminate|].
  destruct (isRunning (timer w)).
  - destruct Hc as (_ & h' & Hh & Hp). rewrite Hp in Hl |- *.
    apply lookup_singleton_Some in Hl as [-> _].
    by rewrite delete_singleton_eq.
  - destruct Hc as (_ & _ & Hp). rewrite Hp in Hl. by rewrite lookup_empty in Hl.
Qed.

Lemma step_consistent now e w w' :
  consistent w → step now e w = Some w' → consistent w'.
Proof.
  intros Hc. destruct e; simpl.
  - intros [= <-]. by apply start_timer_consistent.
  - intros [= <-]. by apply stop_timer_consistent.
  - intros [= <-]. by apply edit_timer_consistent.
  - by intros [= <-].
  - by apply fire_consistent.
Qed.

Lemma exec_consistent run : ∀ w w',
  consistent w → exec run w = Some w' → consistent w'.
Proof.
  induction run as [|[now e] run IH]; intros w w' Hc; simpl.
  - by intros [= <-].
  - destruct (step now e w) as [w1|] eqn:Hs; [|discriminate].
    apply IH. by eapply step_consistent.
Qed.

Lemma clearTimeout_guarded ref s :
  (if truthy_ref ref then clearTimeout ref s else s) = clearTimeout ref s.
Proof. by destruct ref. Qed.

Lemma requestedMs_Some m s :
  requestedMs (Some {| minutes := m; seconds := s |})
  = default 0 m * 60000 + default 0 s * 1000.
Proof. reflexivity. Qed.

Lemma start_timer_ok args now now_r w :
  0 < requestedMs args →
  (start_timer args now now_r w).1 =
  {| timer := {| durationMs := requestedMs args;
                 remainingMs := requestedMs args;
                 startedAt := Some now;
                 isRunning := true;
                 timeoutRef := Some (nextHandle (sched w)) |};
     sched := {| pending :=
                   <[nextHandle (sched w) := requestedMs args]>
                     (pending (clearTimeout (timeoutRef (timer w)) (sched w)));
                 nextHandle := S (nextHandle (sched w)) |} |}.
Proof.
  intros Hd. unfold start_timer.
  destruct (Z.leb_spec (requestedMs args) 0); [lia|].
  rewrite clearTimeout_guarded. by destruct (timeoutRef (timer w)).
Qed.

Lemma computeRemaining_fresh d now now' eps ref :
  0 < d → now ≤ now' ≤ now + eps →
  d - eps ≤ computeRemaining
              {| durationMs := d; remainingMs := d; startedAt := Some now;
                 isRunning := true; timeoutRef := ref |} now' ≤ d.
Proof.
  intros Hd Hn. unfold computeRemaining. simpl.
  destruct (Z.eqb_spec now 0); simpl; lia.
Qed.

Lemma step_cancels now e w w' h :
  consistent w → step now e w = Some w' →
  is_Some (pending (sched w) !! h) →
  w' = w ∨ pending (sched w') !! h = None.
Proof.
  intros [Hlt Hc] Hs Hl.
  destruct (isRunning (timer w)) eqn:Hr; cycle 1.
  { destruct Hc as (_ & _ & Hp). rewrite Hp, lookup_empty in Hl.
    by destruct Hl. }
  destruct Hc as (_ & h0 & Hh & Hp). rewrite Hp in Hl.
  apply lookup_singleton_is_Some in Hl as ->.
  specialize (Hlt _ Hh).
  destruct e; simpl in Hs.
  - injection Hs as <-. unfold start_timer.
    destruct (requestedMs args <=? 0); [by left|right].
    rewrite Hh. simpl.
    rewrite Hp, delete_singleton_eq, insert_empty.
    apply lookup_singleton_ne. lia.
  - injection Hs as <-. unfold stop_timer. rewrite Hr, Hh. simpl.
    right. by rewrite Hp, delete_singleton_eq.
  - injection Hs as <-. unfold edit_timer.
    destruct (requestedMs args <=? 0); [by left|right].
    rewrite Hr, Hh. simpl.
    rewrite Hp, delete_singleton_eq, insert_empty.
    apply lookup_singleton_ne. lia.
  - injection Hs as <-. by left.
  - unfold fire in Hs. rewrite Hp in Hs.
    destruct (decide (h0 = h)) as [->|Hne].
    + rewrite lookup_singleton_eq in Hs. injection Hs as <-. simpl.
      right. by rewrite delete_singleton_eq.
    + by rewrite lookup_singleton_ne in Hs.
Qed.

Lemma bounded_mono lo hi t : lo ≤ hi → bounded lo t → bounded hi t.
Proof.
  intros Hle (H0 & H1 & H2). repeat split; [done..|].
  intros ts Hts. specialize (H2 _ Hts). lia.
Qed.

Lemma computeRemaining_bounded lo now t :
  lo ≤ now → bounded lo t →
  0 ≤ computeRemaining t now ≤ durationMs t.
Proof.
  intros Hle (H0 & H1 & H2). unfold computeRemaining.
  destruct (startedAt t) as [ts|]; simpl.
  - specialize (H2 _ eq_refl).
    destruct (negb (isRunning t) || negb (negb (ts =? 0))); lia.
  - rewrite orb_true_r. lia.
Qed.

Lemma step_bounded lo now e w w' :
  lo ≤ now → bounded lo (timer w) → step now e w = Some w' →
  bounded now (timer w').
Proof.
  intros Hle Hb Hs.
  pose proof (bounded_mono _ _ _ Hle Hb) as Hb'.
  destruct e; simpl in Hs.
  - injection Hs as <-. unfold start_timer.
    destruct (Z.leb_spec (requestedMs args) 0); [done|].
    rewrite clearTimeout_guarded. unfold bounded; simpl.
    repeat split; [lia..|]. intros ? [= <-]. lia.
  - injection Hs as <-. unfold stop_timer.
    destruct (isRunning (timer w)); simpl; [|done].
    pose proof (computeRemaining_bounded _ _ _ Hle Hb).
    unfold bounded; simpl.
    repeat split; [lia..|]. intros ?; discriminate.
  - injection Hs as <-. unfold edit_timer.
    destruct (Z.leb_spec (requestedMs args) 0); [done|].
    rewrite clearTimeout_guarded.
    destruct (isRunning (timer w)); unfold bounded; simpl.
    + repeat split; [lia..|]. intros ? [= <-]. lia.
    + repeat split; [lia..|]. intros ?; discriminate.
  - by injection Hs as <-.
  - unfold fire in Hs.
    destruct (pending (sched w) !! h); [|discriminate].
    injection Hs as <-. destruct Hb as (H0 & H1 & _).
    unfold bounded; simpl.
    repeat split; [lia..|]. intros ?; discriminate.
Qed.

Lemma exec_bounded run : ∀ lo w w',
  chronological_from lo run → bounded lo (timer w) →
  exec run w = Some w' → ∃ hi, bounded hi (timer w').
Proof.
  induction run as [|[now e] run IH]; intros lo w w' Hch Hb; simpl.
  - intros [= <-]. by exists lo.
  - destruct Hch as [Hle Hch].
    destruct (step now e w) as [w1|] eqn:Hs; [|discriminate].
    apply (IH now); [done|]. by eapply step_bounded.
Qed.




(** ** Exact arithmetic and doubles agree within the safe range *)

Lemma round_double_safe z :
  Z.abs z ≤ MAX_SAFE_INTEGER → round_double z = Some z.
Proof.
  intros Hz. unfold round_double.
  by destruct (Z.leb_spec (Z.abs z) MAX_SAFE_INTEGER); [|lia].
Qed.

Lemma js_requestedMs_safe args :
  0 ≤ arg_or_zero minutes args → 0 ≤ arg_or_zero seconds args →
  requestedMs args ≤ MAX_SAFE_INTEGER →
  js_requestedMs args = Some (requestedMs args).
Proof.
  unfold requestedMs, js_requestedMs. intros Hm Hs Hd.
  rewrite !round_double_safe by lia. simpl.
  by rewrite round_double_safe by lia.
Qed.

Lemma js_start_timer_safe args now now_r w :
  0 ≤ arg_or_zero minutes args → 0 ≤ arg_or_zero seconds args →
  requestedMs args ≤ MAX_SAFE_INTEGER →
  js_start_timer args now w = Some (start_timer args now now_r w).1.
Proof.
  intros Hm Hs Hd. unfold js_start_timer, start_timer.
  rewrite js_requestedMs_safe by done. simpl.
  destruct (requestedMs args <=? 0); [done|].
  by destruct (truthy_ref (timeoutRef (timer w))).
Qed.

Lemma js_computeRemaining_safe t now :
  safe_reading t now →
  js_computeRemaining t now = Some (computeRemaining t now).
Proof.
  intros (_ & He & Hr). unfold js_computeRemaining, computeRemaining.
  destruct (negb (isRunning t) || negb (truthy_num (startedAt t))); [done|].
  rewrite round_double_safe by done. simpl.
  by rewrite round_double_safe by done.
Qed.

(** ** The claims *)

(** C1, as the code has it.  For every state and all minutes [m] and
    seconds [s] (a missing argument counts as 0), non-negative and with
    [0 < m*60000 + s*1000 ≤ Number.MAX_SAFE_INTEGER], [start_timer] sets
    [durationMs = m*60000 + s*1000] (the doubles of the code compute that
    very number), [remainingMs = durationMs], [startedAt = now],
    [isRunning = true], clears the timeout held in [timeoutRef] and
    schedules a new completion with delay [durationMs], whose handle it
    stores.  A [get_timer] at a reading [now_g] with
    [now ≤ now_g ≤ now + eps] then reports [isRunning = true], the same
    [durationMs], and a [remainingMs] in [[durationMs - eps, durationMs]]
    (for a delay [eps] within the safe range, again the number the doubles
    compute). *)
Theorem start_timer_starts (m s : option Z) (now now_r now_g eps : Z) (w : World) :
  0 ≤ default 0 m →
  0 ≤ default 0 s →
  0 < default 0 m * 60000 + default 0 s * 1000 ≤ MAX_SAFE_INTEGER →
  now ≤ now_g ≤ now + eps →
  let d := default 0 m * 60000 + default 0 s * 1000 in
  let args := Some {| minutes := m; seconds := s |} in
  let w' := (start_timer args now now_r w).1 in
  js_requestedMs args = Some d ∧
  js_start_timer args now w = Some w' ∧
  timer w' = {| durationMs := d; remainingMs := d; startedAt := Some now;
                isRunning := true; timeoutRef := Some (nextHandle (sched w)) |} ∧
  pending (sched w') =
    <[nextHandle (sched w) := d]>
      (pending (clearTimeout (timeoutRef (timer w)) (sched w))) ∧
  pending (sched w') !! nextHandle (sched w) = Some d ∧
  (∀ h, timeoutRef (timer w) = Some h → h ≠ nextHandle (sched w) →
        pending (sched w') !! h = None) ∧
  (get_timer now_g w').1 = w' ∧
  let snap := structuredContent (get_timer now_g w').2 in
  snap_isRunning snap = true ∧
  snap_durationMs snap = d ∧
  d - eps ≤ snap_remainingMs snap ≤ d ∧
  (eps ≤ MAX_SAFE_INTEGER →
     js_computeRemaining (timer w') now_g = Some (snap_remainingMs snap)).
Proof.
  intros Hm Hs Hd Hn d args w'.
  assert (Hreq : requestedMs args = d) by done.
  split; [by rewrite js_requestedMs_safe; rewrite ?Hreq; [|done|done|lia]|].
  split.
  { subst w'. apply js_start_timer_safe; [done|done|]. rewrite Hreq. lia. }
  subst w'.
  rewrite start_timer_ok by (rewrite Hreq; lia).
  rewrite Hreq. simpl.
  split; [done|]. split; [done|].
  split; [by rewrite lookup_insert_eq|].
  split.
  { intros h Hh Hne. rewrite Hh. simpl.
    by rewrite lookup_insert_ne, lookup_delete_eq. }
  split; [done|]. split; [done|]. split; [done|].
  split; [apply computeRemaining_fresh; lia|].
  intros Heps.
  apply js_computeRemaining_safe. unfold safe_reading. simpl. lia.
Qed.

Lemma start_timer_starts_witness :
  0 ≤ default 0 None ∧
  0 ≤ default 0 (Some 5) ∧
  0 < default 0 None * 60000 + default 0 (Some 5) * 1000 ≤ MAX_SAFE_INTEGER ∧
  1000 ≤ 1002 ≤ 1000 + 3 ∧
  let w' := (start_timer five_seconds 1000 1001 running_world).1 in
  js_requestedMs five_seconds = Some 5000 ∧
  timer w' = {| durationMs := 5000; remainingMs := 5000;
                startedAt := Some 1000; isRunning := true;
                timeoutRef := Some 2%nat |} ∧
  pending (sched w') !! 2%nat = Some 5000 ∧
  pending (sched w') !! 1%nat = None ∧
  4997 ≤ snap_remainingMs (structuredContent (get_timer 1002 w').2) ≤ 5000.
Proof.
  assert (H1 : 0 ≤ default 0 None) by (simpl; lia).
  assert (H2 : 0 ≤ default 0 (Some 5)) by (simpl; lia).
  assert (H3 : 0 < default 0 None * 60000 + default 0 (Some 5) * 1000
               ≤ MAX_SAFE_INTEGER)
    by (unfold MAX_SAFE_INTEGER; simpl; lia).
  assert (H4 : 1000 ≤ 1002 ≤ 1000 + 3) by lia.
  pose proof (start_timer_starts None (Some 5) 1000 1001 1002 3 running_world
                H1 H2 H3 H4)
    as (Hjs & _ & Ht & _ & Hnew & Hold & _ & _ & _ & Hrem & _).
  split; [exact H1|]. split; [exact H2|]. split; [exact H3|].
  split; [exact H4|].
  split; [exact Hjs|].
  split; [exact Ht|]. split; [exact Hnew|].
  split; [exact (Hold 1%nat eq_refl ltac:(discriminate))|exact Hrem].
Defined.

(** C1 as written fails beyond the safe range.  The arguments
    [{minutes: 1500000000000, seconds: 1}] pass the schema; the code stores
    the double 90000000000000992, not [m*60000 + s*1000].  After a start
    for 1500000000000 minutes and 0 seconds, a read 9 ms later shows a
    [remainingMs] more than 9 below [durationMs]. *)
Lemma start_timer_starts_counterexample :
  startTimerSchema huge_args = true ∧
  js_start_timer (Some huge_args) 1000 initial_world
    = Some {| timer := huge_timer;
              sched := {| pending := {[ 1%nat := 90000000000000992 ]};
                          nextHandle := 2 |} |} ∧
  durationMs huge_timer ≠ 1500000000000 * 60000 + 1 * 1000 ∧
  js_computeRemaining
    {| durationMs := 1500000000000 * 60000; remainingMs := 1500000000000 * 60000;
       startedAt := Some 1000; isRunning := true; timeoutRef := Some 1%nat |}
    1009 = Some 89999999999999984 ∧
  89999999999999984 < 1500000000000 * 60000 - 9.
Proof. repeat split; (reflexivity || discriminate). Qed.

(** C2. In every state reached from the initial idle state by a run of
    tool calls and completion firings: a running timer has a start timestamp
    and a live completion whose handle is in [timeoutRef]; an idle timer has
    no start timestamp; at most one completion is live; and whatever event
    comes next, a completion that was live before it is no longer live after
    it, unless the event left the whole state as it was. *)
Theorem reachable_consistent (run : list (Z * Event)) (w : World) :
  exec run initial_world = Some w →
  (isRunning (timer w) = true →
     is_Some (startedAt (timer w)) ∧
     ∃ h, timeoutRef (timer w) = Some h ∧ is_Some (pending (sched w) !! h)) ∧
  (isRunning (timer w) = false → startedAt (timer w) = None) ∧
  (size (pending (sched w)) ≤ 1)%nat ∧
  (∀ now e w' h,
     step now e w = Some w' →
     is_Some (pending (sched w) !! h) →
     w' = w ∨ pending (sched w') !! h = None).
Proof.
  intros Hex.
  assert (Hc : consistent w) by (eapply exec_consistent; [apply initial_consistent|done]).
  pose proof Hc as [Hlt Hshape].
  destruct (isRunning (timer w)) eqn:Hr.
  - destruct Hshape as (Hst & h & Hh & Hp).
    split; [|split; [done|split]].
    + intros _. split; [done|]. exists h. split; [done|].
      rewrite Hp, lookup_singleton_eq. by eexists.
    + by rewrite Hp, map_size_singleton.
    + intros now e w' h'. by apply step_cancels.
  - destruct Hshape as (Hst & Hh & Hp).
    split; [done|split; [done|split]].
    + rewrite Hp, map_size_empty. lia.
    + intros now e w' h'. by apply step_cancels.
Qed.

Lemma reachable_consistent_witness :
  exec sample_run initial_world = Some sample_run_end ∧
  is_Some (startedAt (timer sample_run_end)) ∧
  (size (pending (sched sample_run_end)) ≤ 1)%nat ∧
  pending (sched (stop_timer 3000 3000 sample_run_end).1) !! 2%nat = None.
Proof.
  assert (Hex : exec sample_run initial_world = Some sample_run_end)
    by reflexivity.
  destruct (reachable_consistent sample_run sample_run_end Hex)
    as (Hrun & _ & Hsize & Hcancel).
  split; [exact Hex|]. split; [exact (proj1 (Hrun eq_refl))|].
  split; [exact Hsize|].
  destruct (Hcancel 3000 StopTimer (stop_timer 3000 3000 sample_run_end).1
              2%nat eq_refl (ex_intro _ 10000 eq_refl)) as [Heq|Hnone].
  - discriminate Heq.
  - exact Hnone.
Defined.

(** C9, as the code has it.  In every state reached from the initial state
    by a run of tool calls and completion firings whose clock readings do
    not go back, [0 ≤ remainingMs ≤ durationMs].  From such a state, a
    successful [start_timer] or [edit_timer] sets [remainingMs] equal to
    [durationMs]; [stop_timer], at a reading not before the start
    timestamp, sets [remainingMs] to a value between 0 and [durationMs];
    and the completion callback sets [remainingMs] to 0 and keeps
    [durationMs]. *)
Theorem reachable_remaining_le_duration (run : list (Z * Event)) (w : World) :
  chronological run →
  exec run initial_world = Some w →
  0 ≤ remainingMs (timer w) ≤ durationMs (timer w) ∧
  (∀ args n n_r, 0 < requestedMs args →
     remainingMs (timer (start_timer args n n_r w).1) = requestedMs args ∧
     durationMs (timer (start_timer args n n_r w).1) = requestedMs args) ∧
  (∀ args n n_r, 0 < requestedMs args →
     remainingMs (timer (edit_timer args n n_r w).1) = requestedMs args ∧
     durationMs (timer (edit_timer args n n_r w).1) = requestedMs args) ∧
  (∀ n n_r, (∀ ts, startedAt (timer w) = Some ts → ts ≤ n) →
     0 ≤ remainingMs (timer (stop_timer n n_r w).1)
       ≤ durationMs (timer (stop_timer n n_r w).1) ∧
     durationMs (timer (stop_timer n n_r w).1) = durationMs (timer w)) ∧
  (∀ h w', fire h w = Some w' →
     remainingMs (timer w') = 0 ∧
     durationMs (timer w') = durationMs (timer w)).
Proof.
  intros Hch Hex.
  assert (Hinit : ∀ lo, bounded lo initial_timer).
  { intros lo. repeat split; simpl; [lia..|]. intros ?; discriminate. }
  assert (Hb : 0 ≤ remainingMs (timer w) ≤ durationMs (timer w)).
  { destruct run as [|[now e] run].
    - injection Hex as <-. simpl. lia.
    - destruct (exec_bounded ((now, e) :: run) now initial_world w)
        as (hi & H0 & H1 & _); [split; [lia|done]|apply Hinit|done|lia]. }
  split; [done|]. split; [|split; [|split]].
  - intros args n n_r Hd. by rewrite start_timer_ok.
  - intros args n n_r Hd. unfold edit_timer.
    destruct (Z.leb_spec (requestedMs args) 0); [lia|].
    rewrite clearTimeout_guarded. by destruct (isRunning (timer w)).
  - intros n n_r Hts.
    assert (Hbn : bounded n (timer w)) by (unfold bounded; split; [lia|split; [lia|done]]).
    pose proof (computeRemaining_bounded n n (timer w) ltac:(lia) Hbn).
    unfold stop_timer. destruct (isRunning (timer w)); simpl; lia.
  - intros h w' Hf. unfold fire in Hf.
    destruct (pending (sched w) !! h); [|discriminate].
    by injection Hf as <-.
Qed.

Lemma reachable_remaining_le_duration_witness :
  chronological stopped_run ∧
  exec stopped_run initial_world = Some stopped_run_end ∧
  0 ≤ remainingMs (timer stopped_run_end) ≤ durationMs (timer stopped_run_end) ∧
  remainingMs (timer (edit_timer ten_seconds 4000 4000 stopped_run_end).1)
    = requestedMs ten_seconds.
Proof.
  assert (Hch : chronological stopped_run) by (simpl; lia).
  assert (Hex : exec stopped_run initial_world = Some stopped_run_end)
    by reflexivity.
  destruct (reachable_remaining_le_duration stopped_run stopped_run_end Hch Hex)
    as (Hle & _ & Hedit & _).
  split; [exact Hch|]. split; [exact Hex|]. split; [exact Hle|].
  exact (proj1 (Hedit ten_seconds 4000 4000 eq_refl)).
Defined.

(** C9 as written fails: the run [backwards_run] starts a five-second timer
    at reading 1000 and stops it at reading 999; the stop stores
    [remainingMs = 5001], above [durationMs = 5000]. *)
Lemma reachable_remaining_le_duration_counterexample :
  exec backwards_run initial_world = Some backwards_world ∧
  durationMs (timer backwards_world) < remainingMs (timer backwards_world) ∧
  ¬ (∀ run w, exec run initial_world = Some w →
       remainingMs (timer w) ≤ durationMs (timer w)).
Proof.
  split; [reflexivity|]. split; [reflexivity|].
  intros H. specialize (H backwards_run backwards_world eq_refl).
  simpl in H. lia.
Qed.

(** C3. For every state and all arguments whose computed duration is at
    most 0, [start_timer] and [edit_timer] return the state as it was,
    with the message "Provide a duration greater than 0." and the snapshot
    of that state: the condition is reported in the reply, which every call
    produces.  No handler stops half way: the state after a call is the
    state before it, or the complete transition of the handler. *)
Theorem invalid_duration_rejected (args : option Args) (now now_r : Z) (w : World) :
  requestedMs args ≤ 0 →
  start_timer args now now_r w
    = (w, replyWithTimer (Some invalid_duration_msg) now_r (timer w)) ∧
  edit_timer args now now_r w
    = (w, replyWithTimer (Some invalid_duration_msg) now_r (timer w)) ∧
  content (replyWithTimer (Some invalid_duration_msg) now_r (timer w))
    = ["Provide a duration greater than 0."] ∧
  (∀ a n nr,
     (start_timer a n nr w).1 = w ∨
     timer (start_timer a n nr w).1 =
       {| durationMs := requestedMs a; remainingMs := requestedMs a;
          startedAt := Some n; isRunning := true;
          timeoutRef := Some (nextHandle (sched w)) |}) ∧
  (∀ a n nr,
     (edit_timer a n nr w).1 = w ∨
     timer (edit_timer a n nr w).1 =
       {| durationMs := requestedMs a; remainingMs := requestedMs a;
          startedAt := if isRunning (timer w) then Some n else None;
          isRunning := isRunning (timer w);
          timeoutRef := if isRunning (timer w)
                        then Some (nextHandle (sched w))
                        else timeoutRef (timer w) |}) ∧
  (∀ n nr,
     (stop_timer n nr w).1 = w ∨
     timer (stop_timer n nr w).1 =
       {| durationMs := durationMs (timer w);
          remainingMs := computeRemaining (timer w) n;
          startedAt := None; isRunning := false; timeoutRef := None |}) ∧
  (∀ n, (get_timer n w).1 = w).
Proof.
  intros Hd. repeat split.
  - unfold start_timer. by destruct (Z.leb_spec (requestedMs args) 0); [|lia].
  - unfold edit_timer. by destruct (Z.leb_spec (requestedMs args) 0); [|lia].
  - intros a n nr. unfold start_timer.
    destruct (requestedMs a <=? 0); [by left|right].
    rewrite clearTimeout_guarded. by destruct (timeoutRef (timer w)).
  - intros a n nr. unfold edit_timer.
    destruct (requestedMs a <=? 0); [by left|right].
    rewrite clearTimeout_guarded.
    by destruct (isRunning (timer w)), (timeoutRef (timer w)).
  - intros n nr. unfold stop_timer.
    destruct (isRunning (timer w)); [by right|by left].
Qed.

Lemma invalid_duration_rejected_witness :
  requestedMs zero_duration ≤ 0 ∧
  start_timer zero_duration 1500 1501 running_world
    = (running_world,
       replyWithTimer (Some invalid_duration_msg) 1501 (timer running_world)) ∧
  edit_timer zero_duration 1500 1501 running_world
    = (running_world,
       replyWithTimer (Some invalid_duration_msg) 1501 (timer running_world)).
Proof.
  assert (Hd : requestedMs zero_duration ≤ 0) by (vm_compute; discriminate).
  destruct (invalid_duration_rejected zero_duration 1500 1501 running_world Hd)
    as (Hs & He & _).
  split; [exact Hd|]. split; [exact Hs|exact He].
Defined.

(** C4, as the code has it.  For every state in which a running timer
    has a start timestamp other than 0, and every clock reading [now] such
    that the numbers involved stay within the safe range, the snapshot in
    the reply carries [isRunning] and [durationMs] of the state,
    [remainingMs] equal to the stored [remainingMs] when the timer is not
    running and to [max (durationMs - (now - startedAt)) 0] when it runs
    (the number the doubles of the code compute), and [remainingSeconds]
    equal to the ceiling of [remainingMs / 1000].  Every handler replies
    with this snapshot of the state it leaves. *)
Theorem snapshot_of_state (message : option string) (now : Z) (t : Timer) :
  running_has_startedAt t →
  safe_reading t now →
  let snap := structuredContent (replyWithTimer message now t) in
  snap_isRunning snap = isRunning t ∧
  snap_durationMs snap = durationMs t ∧
  (isRunning t = false → snap_remainingMs snap = remainingMs t) ∧
  (∀ ts, isRunning t = true → startedAt t = Some ts →
     snap_remainingMs snap = Z.max (durationMs t - (now - ts)) 0) ∧
  snap_remainingMs snap = spec_computeRemaining t now ∧
  js_computeRemaining t now = Some (snap_remainingMs snap) ∧
  1000 * (snap_remainingSeconds snap - 1) < snap_remainingMs snap
    ≤ 1000 * snap_remainingSeconds snap ∧
  (∀ w a n nr,
     structuredContent (start_timer a n nr w).2
       = structuredContent (replyWithTimer None nr (timer (start_timer a n nr w).1)) ∧
     structuredContent (stop_timer n nr w).2
       = structuredContent (replyWithTimer None nr (timer (stop_timer n nr w).1)) ∧
     structuredContent (edit_timer a n nr w).2
       = structuredContent (replyWithTimer None nr (timer (edit_timer a n nr w).1)) ∧
     structuredContent (get_timer nr w).2
       = structuredContent (replyWithTimer None nr (timer (get_timer nr w).1))).
Proof.
  intros Hinv Hsafe. simpl.
  split; [done|]. split; [done|].
  split; [by apply computeRemaining_idle|].
  split.
  { intros ts Hr Hs. apply computeRemaining_running; [done..|].
    specialize (Hinv Hr). rewrite Hs in Hinv. simpl in Hinv.
    by destruct (Z.eqb_spec ts 0). }
  split.
  { unfold spec_computeRemaining, computeRemaining.
    destruct (isRunning t) eqn:Hr; [|done].
    by rewrite (Hinv Hr). }
  split; [by apply js_computeRemaining_safe|].
  split; [apply ceil_div_1000|].
  intros w a n nr. repeat split.
  - unfold start_timer. destruct (requestedMs a <=? 0); [done|].
    rewrite clearTimeout_guarded. by destruct (timeoutRef (timer w)).
  - unfold stop_timer. by destruct (isRunning (timer w)).
  - unfold edit_timer. destruct (requestedMs a <=? 0); [done|].
    rewrite clearTimeout_guarded.
    by destruct (isRunning (timer w)), (timeoutRef (timer w)).
Qed.

Lemma snapshot_of_state_witness :
  running_has_startedAt (timer running_world) ∧
  safe_reading (timer running_world) 3001 ∧
  snap_remainingMs
    (structuredContent (replyWithTimer None 3001 (timer running_world)))
    = Z.max (durationMs (timer running_world) - (3001 - 1000)) 0 ∧
  1000 * (snap_remainingSeconds
            (structuredContent (replyWithTimer None 3001 (timer running_world)))
          - 1)
    < snap_remainingMs
        (structuredContent (replyWithTimer None 3001 (timer running_world)))
    ≤ 1000 * snap_remainingSeconds
               (structuredContent (replyWithTimer None 3001 (timer running_world))).
Proof.
  assert (Hinv : running_has_startedAt (timer running_world))
    by (intros _; reflexivity).
  assert (Hsafe : safe_reading (timer running_world) 3001)
    by (repeat split; vm_compute; discriminate).
  destruct (snapshot_of_state None 3001 (timer running_world) Hinv Hsafe)
    as (_ & _ & _ & Hrun & _ & _ & Hceil & _).
  split; [exact Hinv|]. split; [exact Hsafe|].
  split; [exact (Hrun 1000 eq_refl eq_refl)|exact Hceil].
Defined.

(** C4 as written fails in states the server reaches.  After
    [start_timer] for five seconds at clock reading 0 the timer runs with
    [startedAt = 0]; read at 1000, the snapshot's [remainingMs] is the
    stored 5000, the formula gives 4000.  After [start_timer] with
    [{minutes: 1500000000000, seconds: 1}] at reading 1000 the state is
    [huge_timer]; read at 1001, the code computes 90000000000000992, the
    formula gives 90000000000000991. *)
Lemma snapshot_of_state_counterexample :
  (exec epoch_run initial_world = Some epoch_world ∧
   isRunning (timer epoch_world) = true ∧
   startedAt (timer epoch_world) = Some 0 ∧
   snap_remainingMs
     (structuredContent (replyWithTimer None 1000 (timer epoch_world))) = 5000 ∧
   Z.max (durationMs (timer epoch_world) - (1000 - 0)) 0 = 4000) ∧
  (js_start_timer (Some huge_args) 1000 initial_world
     = Some {| timer := huge_timer;
               sched := {| pending := {[ 1%nat := 90000000000000992 ]};
                           nextHandle := 2 |} |} ∧
   js_computeRemaining huge_timer 1001 = Some 90000000000000992 ∧
   Z.max (durationMs huge_timer - (1001 - 1000)) 0 = 90000000000000991) ∧
  ¬ (∀ message now t,
       (isRunning t = true → is_Some (startedAt t)) →
       snap_remainingMs (structuredContent (replyWithTimer message now t))
         = spec_computeRemaining t now).
Proof.
  split; [repeat split|split; [repeat split|]].
  intros H.
  specialize (H None 1000 (timer epoch_world) (λ _, ex_intro _ 0 eq_refl)).
  discriminate H.
Qed.

Lemma computeRemaining_antitone t now1 now2 :
  now1 ≤ now2 → computeRemaining t now2 ≤ computeRemaining t now1.
Proof.
  intros Hle. unfold computeRemaining.
  destruct (negb (isRunning t) || negb (truthy_num (startedAt t))); lia.
Qed.

Lemma fire_Some h w w' :
  fire h w = Some w' →
  timer w' = completion (timer w) ∧
  pending (sched w') = delete h (pending (sched w)).
Proof.
  unfold fire. destruct (pending (sched w) !! h); [|discriminate].
  by intros [= <-].
Qed.





(** C7. When the completion scheduled by a successful [start_timer] fires,
    the state becomes [isRunning = false], [remainingMs = 0], [startedAt]
    absent, [timeoutRef] absent, and the handle is spent; a [get_timer] at
    any later reading reports [isRunning = false], [remainingMs = 0] and
    [remainingSeconds = 0].  The same holds for the firing of any live
    completion in any state. *)
Theorem completion_fires (args : option Args) (now now_r now_g : Z) (w : World) :
  0 < requestedMs args →
  let w1 := (start_timer args now now_r w).1 in
  (∃ w2, fire (nextHandle (sched w)) w1 = Some w2 ∧
     timer w2 = {| durationMs := requestedMs args; remainingMs := 0;
                   startedAt := None; isRunning := false;
                   timeoutRef := None |} ∧
     pending (sched w2) !! nextHandle (sched w) = None ∧
     (get_timer now_g w2).1 = w2 ∧
     structuredContent (get_timer now_g w2).2 =
       {| snap_isRunning := false; snap_durationMs := requestedMs args;
          snap_remainingMs := 0; snap_remainingSeconds := 0 |}) ∧
  (∀ h w0 w', fire h w0 = Some w' →
     isRunning (timer w') = false ∧
     remainingMs (timer w') = 0 ∧
     startedAt (timer w') = None ∧
     timeoutRef (timer w') = None ∧
     pending (sched w') !! h = None ∧
     structuredContent (get_timer now_g w').2 =
       {| snap_isRunning := false; snap_durationMs := durationMs (timer w0);
          snap_remainingMs := 0; snap_remainingSeconds := 0 |}).
Proof.
  intros Hd w1. subst w1. split.
  - rewrite start_timer_ok by done. unfold fire. simpl.
    rewrite lookup_insert_eq. eexists. split; [done|]. simpl.
    split; [done|]. split; [apply lookup_delete_eq|done].
  - intros h w0 w' Hf. apply fire_Some in Hf as [Ht Hp].
    rewrite Hp, lookup_delete_eq. unfold get_timer. simpl. by rewrite Ht.
Qed.

Lemma completion_fires_witness :
  0 < requestedMs five_seconds ∧
  ∃ w2, fire 1%nat (start_timer five_seconds 1000 1000 initial_world).1 = Some w2 ∧
    structuredContent (get_timer 6100 w2).2 =
      {| snap_isRunning := false; snap_durationMs := 5000;
         snap_remainingMs := 0; snap_remainingSeconds := 0 |}.
Proof.
  assert (Hd : 0 < requestedMs five_seconds) by reflexivity.
  destruct (completion_fires five_seconds 1000 1000 6100 initial_world Hd)
    as ((w2 & Hf & _ & _ & _ & Hsnap) & _).
  split; [exact Hd|]. exists w2. split; [exact Hf|exact Hsnap].
Defined.

(** C8. [get_timer] returns the state as it was; two calls in a row at
    readings [now1 ≤ now2] report the same [durationMs] and [isRunning], and
    the second [remainingMs] is at most the first. *)
Theorem get_timer_pure (now1 now2 : Z) (w : World) :
  now1 ≤ now2 →
  (get_timer now1 w).1 = w ∧
  (get_timer now2 (get_timer now1 w).1).1 = w ∧
  let snap1 := structuredContent (get_timer now1 w).2 in
  let snap2 := structuredContent (get_timer now2 (get_timer now1 w).1).2 in
  snap_durationMs snap2 = snap_durationMs snap1 ∧
  snap_isRunning snap2 = snap_isRunning snap1 ∧
  snap_remainingMs snap2 ≤ snap_remainingMs snap1.
Proof.
  intros Hle. simpl. repeat split. by apply computeRemaining_antitone.
Qed.

Lemma get_timer_pure_witness :
  1200 ≤ 1800 ∧
  (get_timer 1200 running_world).1 = running_world ∧
  snap_remainingMs
    (structuredContent (get_timer 1800 (get_timer 1200 running_world).1).2)
    ≤ snap_remainingMs (structuredContent (get_timer 1200 running_world).2).
Proof.
  assert (Hle : 1200 ≤ 1800) by lia.
  destruct (get_timer_pure 1200 1800 running_world Hle)
    as (Hsame & _ & _ & _ & Hrem).
  split; [exact Hle|]. split; [exact Hsame|exact Hrem].
Defined.




(** ** Further properties of the timer *)

Lemma schema_nonneg a :
  startTimerSchema a = true →
  0 ≤ default 0 (minutes a) ∧ 0 ≤ default 0 (seconds a).
Proof.
  unfold startTimerSchema, nonnegative_optional.
  intros [Hm Hs]%andb_prop.
  destruct (minutes a), (seconds a); simpl; lia.
Qed.

Lemma ceil_div_1000_unique r k :
  1000 * (k - 1) < r ≤ 1000 * k → ceil_div r 1000 = k.
Proof. intros Hr. pose proof (ceil_div_1000 r). lia. Qed.

Lemma start_timer_reply args now now_r w :
  0 < requestedMs args →
  (start_timer args now now_r w).2 =
    replyWithTimer (Some "Timer started.") now_r
      {| durationMs := requestedMs args; remainingMs := requestedMs args;
         startedAt := Some now; isRunning := true;
         timeoutRef := Some (nextHandle (sched w)) |}.
Proof.
  intros Hd. unfold start_timer.
  destruct (Z.leb_spec (requestedMs args) 0); [lia|].
  rewrite clearTimeout_guarded. by destruct (timeoutRef (timer w)).
Qed.

Lemma edit_timer_reply args now now_r w :
  0 < requestedMs args →
  (edit_timer args now now_r w).2 =
    replyWithTimer (Some "Timer updated.") now_r
      {| durationMs := requestedMs args; remainingMs := requestedMs args;
         startedAt := if isRunning (timer w) then Some now else None;
         isRunning := isRunning (timer w);
         timeoutRef := if isRunning (timer w)
                       then Some (nextHandle (sched w))
                       else timeoutRef (timer w) |}.
Proof.
  intros Hd. unfold edit_timer.
  destruct (Z.leb_spec (requestedMs args) 0); [lia|].
  rewrite clearTimeout_guarded.
  by destruct (isRunning (timer w)), (timeoutRef (timer w)).
Qed.

Lemma start_timer_rejected args now now_r w :
  requestedMs args ≤ 0 →
  start_timer args now now_r w
    = (w, replyWithTimer (Some invalid_duration_msg) now_r (timer w)).
Proof.
  intros Hd. unfold start_timer.
  by destruct (Z.leb_spec (requestedMs args) 0); [|lia].
Qed.

Lemma edit_timer_rejected args now now_r w :
  requestedMs args ≤ 0 →
  edit_timer args now now_r w
    = (w, replyWithTimer (Some invalid_duration_msg) now_r (timer w)).
Proof.
  intros Hd. unfold edit_timer.
  by destruct (Z.leb_spec (requestedMs args) 0); [|lia].
Qed.

Lemma edit_timer_duration args now now_r w :
  0 < requestedMs args →
  durationMs (timer (edit_timer args now now_r w).1) = requestedMs args.
Proof.
  intros Hd. unfold edit_timer.
  destruct (Z.leb_spec (requestedMs args) 0); [lia|].
  rewrite clearTimeout_guarded. by destruct (isRunning (timer w)).
Qed.

Lemma stop_timer_idle now now_r w :
  isRunning (timer w) = false →
  stop_timer now now_r w
    = (w, replyWithTimer (Some not_running_msg) now_r (timer w)).
Proof. intros Hr. unfold stop_timer. by rewrite Hr. Qed.

Lemma stop_timer_running now now_r w :
  isRunning (timer w) = true →
  (stop_timer now now_r w).1 =
    {| timer := {| durationMs := durationMs (timer w);
                   remainingMs := computeRemaining (timer w) now;
                   startedAt := None;
                   isRunning := false;
                   timeoutRef := None |};
       sched := clearTimeout (timeoutRef (timer w)) (sched w) |}.
Proof. intros Hr. unfold stop_timer. by rewrite Hr. Qed.


(** X1. For arguments that pass the input schema, [start_timer] and
    [edit_timer] answer "Provide a duration greater than 0." exactly when
    minutes and seconds are both 0 or missing.  In every other case, when
    [1000 * (60 * minutes + seconds)] is within the safe range, that is the
    number the code computes and the duration both handlers store, at least
    one second. *)
Theorem schema_rejects_only_zero (a : Args) (now now_r : Z) (w : World) :
  startTimerSchema a = true →
  let m := default 0 (minutes a) in
  let s := default 0 (seconds a) in
  (content (start_timer (Some a) now now_r w).2 = [invalid_duration_msg]
     ↔ m = 0 ∧ s = 0) ∧
  (content (edit_timer (Some a) now now_r w).2 = [invalid_duration_msg]
     ↔ m = 0 ∧ s = 0) ∧
  (¬ (m = 0 ∧ s = 0) →
     1000 * (60 * m + s) ≤ MAX_SAFE_INTEGER →
     js_requestedMs (Some a) = Some (1000 * (60 * m + s)) ∧
     durationMs (timer (start_timer (Some a) now now_r w).1) = 1000 * (60 * m + s) ∧
     durationMs (timer (edit_timer (Some a) now now_r w).1) = 1000 * (60 * m + s) ∧
     1000 ≤ 1000 * (60 * m + s)).
Proof.
  intros Hschema m s.
  destruct (schema_nonneg a Hschema) as [Hm Hs]. fold m in Hm. fold s in Hs.
  assert (Hreq : requestedMs (Some a) = m * 60000 + s * 1000) by done.
  destruct (Z.leb_spec (requestedMs (Some a)) 0) as [Hle|Hlt].
  - assert (Hz : m = 0 ∧ s = 0) by lia.
    rewrite start_timer_rejected, edit_timer_rejected by done.
    simpl. split; [tauto|]. split; [tauto|]. tauto.
  - rewrite start_timer_reply, edit_timer_reply by done.
    rewrite start_timer_ok, edit_timer_duration by done. simpl.
    split; [split; [discriminate|lia]|].
    split; [split; [discriminate|lia]|].
    intros _ Hsafe.
    rewrite js_requestedMs_safe by (rewrite ?Hreq; (done || lia)).
    split; [f_equal; lia|lia].
Qed.

Lemma schema_rejects_only_zero_witness :
  startTimerSchema ninety_seconds = true ∧
  durationMs (timer (start_timer (Some ninety_seconds) 1000 1000 initial_world).1)
    = 1000 * (60 * 1 + 30) ∧
  ¬ content (edit_timer (Some ninety_seconds) 1000 1000 initial_world).2
      = [invalid_duration_msg].
Proof.
  assert (Hs : startTimerSchema ninety_seconds = true) by reflexivity.
  destruct (schema_rejects_only_zero ninety_seconds 1000 1000 initial_world Hs)
    as (_ & He & Hd).
  split; [exact Hs|].
  split; [exact (proj1 (proj2 (Hd ltac:(simpl; lia)
                                 ltac:(vm_compute; discriminate))))|].
  intros Hc. apply He in Hc. simpl in Hc. lia.
Defined.

(** X2. The reply to a successful [start_timer] or [edit_timer] with
    non-negative arguments and a duration within the safe range, built less
    than a second after the handler read the clock, shows
    [remainingSeconds = 60 * minutes + seconds]: the whole requested
    duration. *)
Theorem reply_shows_requested_seconds (args : option Args) (now now_r : Z) (w : World) :
  0 ≤ arg_or_zero minutes args →
  0 ≤ arg_or_zero seconds args →
  0 < requestedMs args ≤ MAX_SAFE_INTEGER →
  now ≤ now_r < now + 1000 →
  js_requestedMs args = Some (requestedMs args) ∧
  snap_remainingSeconds (structuredContent (start_timer args now now_r w).2)
    = 60 * arg_or_zero minutes args + arg_or_zero seconds args ∧
  snap_remainingSeconds (structuredContent (edit_timer args now now_r w).2)
    = 60 * arg_or_zero minutes args + arg_or_zero seconds args.
Proof.
  intros Hm Hs [Hd Hsafe] Hn.
  assert (Hreq : requestedMs args
                 = 1000 * (60 * arg_or_zero minutes args + arg_or_zero seconds args))
    by (unfold requestedMs; lia).
  pose proof (computeRemaining_fresh (requestedMs args) now now_r (now_r - now))
    as Hfresh.
  split; [by apply js_requestedMs_safe|].
  rewrite start_timer_reply, edit_timer_reply by done. simpl. split.
  - apply ceil_div_1000_unique.
    specialize (Hfresh (Some (nextHandle (sched w))) Hd ltac:(lia)). lia.
  - apply ceil_div_1000_unique.
    destruct (isRunning (timer w)).
    + specialize (Hfresh (Some (nextHandle (sched w))) Hd ltac:(lia)). lia.
    + rewrite computeRemaining_idle by done. simpl. lia.
Qed.

Lemma reply_shows_requested_seconds_witness :
  0 ≤ arg_or_zero minutes (Some ninety_seconds) ∧
  0 ≤ arg_or_zero seconds (Some ninety_seconds) ∧
  0 < requestedMs (Some ninety_seconds) ≤ MAX_SAFE_INTEGER ∧
  1000 ≤ 1999 < 1000 + 1000 ∧
  snap_remainingSeconds
    (structuredContent (start_timer (Some ninety_seconds) 1000 1999 initial_world).2)
    = 60 * 1 + 30.
Proof.
  assert (Hm : 0 ≤ arg_or_zero minutes (Some ninety_seconds))
    by (vm_compute; discriminate).
  assert (Hs : 0 ≤ arg_or_zero seconds (Some ninety_seconds))
    by (vm_compute; discriminate).
  assert (Hd : 0 < requestedMs (Some ninety_seconds) ≤ MAX_SAFE_INTEGER)
    by (split; [reflexivity|vm_compute; discriminate]).
  assert (Hn : 1000 ≤ 1999 < 1000 + 1000) by lia.
  split; [exact Hm|]. split; [exact Hs|]. split; [exact Hd|]. split; [exact Hn|].
  exact (proj1 (proj2 (reply_shows_requested_seconds (Some ninety_seconds)
                         1000 1999 initial_world Hm Hs Hd Hn))).
Defined.

(** X3. [stop_timer] is idempotent on the state, in every state: a second
    stop changes nothing and answers "Timer is not running.".  After a stop
    the snapshot no longer depends on the clock: the value stored by the
    stop is what every later read shows. *)
Theorem stop_timer_idempotent (now1 now1_r now2 now2_r : Z) (w : World) :
  let w1 := (stop_timer now1 now1_r w).1 in
  (stop_timer now2 now2_r w1).1 = w1 ∧
  content (stop_timer now2 now2_r w1).2 = [not_running_msg] ∧
  isRunning (timer w1) = false ∧
  ∀ n, structuredContent (get_timer n w1).2
       = {| snap_isRunning := false;
            snap_durationMs := durationMs (timer w);
            snap_remainingMs := computeRemaining (timer w) now1;
            snap_remainingSeconds := ceil_div (computeRemaining (timer w) now1) 1000 |}.
Proof.
  intros w1.
  assert (Hidle : isRunning (timer w1) = false).
  { subst w1. destruct (isRunning (timer w)) eqn:Hr.
    - by rewrite stop_timer_running.
    - by rewrite stop_timer_idle. }
  rewrite (stop_timer_idle now2 now2_r w1 Hidle).
  split; [done|]. split; [done|]. split; [done|].
  intros n. unfold get_timer, replyWithTimer. simpl.
  rewrite (computeRemaining_idle _ n Hidle). rewrite Hidle.
  subst w1. destruct (isRunning (timer w)) eqn:Hr.
  - by rewrite stop_timer_running.
  - rewrite stop_timer_idle by done. simpl.
    by rewrite (computeRemaining_idle _ now1 Hr).
Qed.

(** X4. Only a [start_timer] call with a positive duration makes an idle
    timer run: no [stop_timer], [edit_timer], [get_timer] call and no
    completion does, and the timer then counts from the requested
    duration, not from a value stored by an earlier stop. *)
Theorem only_start_timer_starts (now : Z) (e : Event) (w w' : World) :
  step now e w = Some w' →
  isRunning (timer w) = false →
  isRunning (timer w') = true →
  ∃ args, e = StartTimer args ∧ 0 < requestedMs args ∧
          remainingMs (timer w') = requestedMs args ∧
          startedAt (timer w') = Some now.
Proof.
  intros Hs Hidle Hrun. destruct e; simpl in Hs.
  - exists args. injection Hs as <-. revert Hrun. unfold start_timer.
    destruct (Z.leb_spec (requestedMs args) 0).
    + simpl. congruence.
    + rewrite clearTimeout_guarded. by destruct (timeoutRef (timer w)).
  - injection Hs as <-. revert Hrun. unfold stop_timer. rewrite Hidle.
    simpl. congruence.
  - injection Hs as <-. revert Hrun. unfold edit_timer.
    destruct (requestedMs args <=? 0); [simpl; congruence|].
    rewrite Hidle. simpl. discriminate.
  - injection Hs as <-. congruence.
  - apply fire_Some in Hs as [Ht _]. rewrite Ht in Hrun. discriminate.
Qed.

Lemma only_start_timer_starts_witness :
  step 1000 (StartTimer five_seconds) initial_world = Some running_world ∧
  isRunning (timer initial_world) = false ∧
  isRunning (timer running_world) = true ∧
  ∃ args, StartTimer five_seconds = StartTimer args ∧ 0 < requestedMs args ∧
          remainingMs (timer running_world) = requestedMs args ∧
          startedAt (timer running_world) = Some 1000.
Proof.
  assert (Hs : step 1000 (StartTimer five_seconds) initial_world
               = Some running_world) by reflexivity.
  assert (Hi : isRunning (timer initial_world) = false) by reflexivity.
  assert (Hr : isRunning (timer running_world) = true) by reflexivity.
  split; [exact Hs|]. split; [exact Hi|]. split; [exact Hr|].
  exact (only_start_timer_starts 1000 (StartTimer five_seconds) initial_world
           running_world Hs Hi Hr).
Defined.

Lemma reachable_shape run w :
  exec run initial_world = Some w → consistent w.
Proof. intros Hex. eapply exec_consistent; [apply initial_consistent|done]. Qed.

(** X5. In every reachable state an idle timer has nothing scheduled, so no
    completion can fire on a stopped or finished timer and zero the value a
    stop has stored; a completion that fires does so on a running timer, is
    the one recorded in [timeoutRef], was scheduled with delay [durationMs],
    and leaves nothing scheduled. *)
Theorem completion_only_while_running (run : list (Z * Event)) (w : World) :
  exec run initial_world = Some w →
  (isRunning (timer w) = false →
     pending (sched w) = ∅ ∧ ∀ h, fire h w = None) ∧
  (∀ h w', fire h w = Some w' →
     isRunning (timer w) = true ∧
     timeoutRef (timer w) = Some h ∧
     pending (sched w) !! h = Some (durationMs (timer w)) ∧
     pending (sched w') = ∅).
Proof.
  intros Hex. destruct (reachable_shape run w Hex) as [_ Hc].
  destruct (isRunning (timer w)) eqn:Hr.
  - destruct Hc as (_ & h0 & Hh & Hp). split; [done|].
    intros h w' Hf. pose proof (fire_Some _ _ _ Hf) as [_ Hp'].
    unfold fire in Hf. rewrite Hp in Hf.
    destruct (decide (h0 = h)) as [->|Hne].
    + rewrite Hp', Hp, lookup_singleton_eq, delete_singleton_eq. done.
    + by rewrite lookup_singleton_ne in Hf.
  - destruct Hc as (_ & _ & Hp). split.
    + intros _. split; [done|]. intros h. unfold fire.
      by rewrite Hp, lookup_empty.
    + intros h w'. unfold fire. by rewrite Hp, lookup_empty.
Qed.

Lemma completion_only_while_running_witness :
  exec stopped_run initial_world = Some stopped_run_end ∧
  isRunning (timer stopped_run_end) = false ∧
  fire 1%nat stopped_run_end = None.
Proof.
  assert (Hex : exec stopped_run initial_world = Some stopped_run_end)
    by reflexivity.
  destruct (completion_only_while_running stopped_run stopped_run_end Hex)
    as (Hidle & _).
  split; [exact Hex|]. split; [reflexivity|].
  exact (proj2 (Hidle eq_refl) 1%nat).
Defined.

(** X6. Starting twice in a row from a reachable state leaves exactly one
    completion scheduled, the second one with the second duration; the
    completion of the first start cannot fire any more. *)
Theorem restart_replaces_completion (run : list (Z * Event)) (w : World)
    (a1 a2 : option Args) (n1 n1_r n2 n2_r : Z) :
  exec run initial_world = Some w →
  0 < requestedMs a1 →
  0 < requestedMs a2 →
  let w2 := (start_timer a2 n2 n2_r (start_timer a1 n1 n1_r w).1).1 in
  pending (sched w2) = {[ S (nextHandle (sched w)) := requestedMs a2 ]} ∧
  timeoutRef (timer w2) = Some (S (nextHandle (sched w))) ∧
  fire (nextHandle (sched w)) w2 = None ∧
  durationMs (timer w2) = requestedMs a2 ∧
  startedAt (timer w2) = Some n2.
Proof.
  intros Hex H1 H2 w2. subst w2.
  destruct (reachable_shape run w Hex) as [_ Hc].
  rewrite (start_timer_ok a2) by done.
  rewrite (start_timer_ok a1) by done. simpl.
  assert (Hp : pending (clearTimeout (timeoutRef (timer w)) (sched w)) = ∅).
  { destruct (isRunning (timer w)).
    - destruct Hc as (_ & h & -> & Hp). simpl.
      by rewrite Hp, delete_singleton_eq.
    - by destruct Hc as (_ & -> & Hp). }
  rewrite Hp, insert_empty, delete_singleton_eq, insert_empty.
  split; [done|]. split; [done|]. split; [|done].
  unfold fire. simpl. rewrite lookup_singleton_ne; [done|lia].
Qed.

Lemma restart_replaces_completion_witness :
  exec sample_run initial_world = Some sample_run_end ∧
  0 < requestedMs five_seconds ∧
  0 < requestedMs one_minute ∧
  pending (sched (start_timer one_minute 4000 4000
                    (start_timer five_seconds 3000 3000 sample_run_end).1).1)
    = {[ 4%nat := 60000 ]}.
Proof.
  assert (Hex : exec sample_run initial_world = Some sample_run_end)
    by reflexivity.
  assert (H1 : 0 < requestedMs five_seconds) by reflexivity.
  assert (H2 : 0 < requestedMs one_minute) by reflexivity.
  split; [exact Hex|]. split; [exact H1|]. split; [exact H2|].
  exact (proj1 (restart_replaces_completion sample_run sample_run_end
                  five_seconds one_minute 3000 3000 4000 4000 Hex H1 H2)).
Defined.



(** X8. After a successful [start_timer] with non-negative arguments and a
    duration [d] within the safe range, at a non-zero reading [now], a
    [get_timer] at reading [now + e], for [0 ≤ e] within the safe range,
    shows [remainingMs = max (d - e) 0] (the number the doubles of the code
    compute): [d - e] (and at least one remaining second) while [e < d],
    and 0 from [e = d] on, where the snapshot still says [isRunning = true]
    until the completion fires.  A [stop_timer] at that reading stores the
    same value. *)
Theorem countdown_after_start (args : option Args) (now now_r e : Z) (w : World) :
  0 ≤ arg_or_zero minutes args →
  0 ≤ arg_or_zero seconds args →
  0 < requestedMs args ≤ MAX_SAFE_INTEGER →
  now ≠ 0 →
  0 ≤ e ≤ MAX_SAFE_INTEGER →
  let d := requestedMs args in
  let w1 := (start_timer args now now_r w).1 in
  let snap := structuredContent (get_timer (now + e) w1).2 in
  js_start_timer args now w = Some w1 ∧
  js_computeRemaining (timer w1) (now + e) = Some (Z.max (d - e) 0) ∧
  snap_isRunning snap = true ∧
  snap_remainingMs snap = Z.max (d - e) 0 ∧
  (e < d → snap_remainingMs snap = d - e ∧ 1 ≤ snap_remainingSeconds snap) ∧
  (d ≤ e → snap_remainingMs snap = 0 ∧ snap_remainingSeconds snap = 0) ∧
  ∀ n_r, remainingMs (timer (stop_timer (now + e) n_r w1).1) = Z.max (d - e) 0.
Proof.
  intros Hm Hs [Hd Hsafe] Hnow He d w1 snap. subst snap w1.
  split; [by apply js_start_timer_safe|].
  rewrite start_timer_ok by done. fold d.
  assert (Hrem : ∀ ref,
    computeRemaining {| durationMs := d; remainingMs := d;
                        startedAt := Some now; isRunning := true;
                        timeoutRef := ref |} (now + e) = Z.max (d - e) 0).
  { intros ref. rewrite (computeRemaining_running _ _ now) by done.
    simpl. f_equal. lia. }
  split.
  { simpl. rewrite js_computeRemaining_safe, Hrem; [done|].
    unfold safe_reading. simpl. lia. }
  unfold get_timer, replyWithTimer, stop_timer. simpl. rewrite !Hrem.
  pose proof (ceil_div_1000 (Z.max (d - e) 0)).
  repeat split; lia.
Qed.

Lemma countdown_after_start_witness :
  0 ≤ arg_or_zero minutes five_seconds ∧
  0 ≤ arg_or_zero seconds five_seconds ∧
  0 < requestedMs five_seconds ≤ MAX_SAFE_INTEGER ∧
  1000 ≠ 0 ∧
  0 ≤ 5200 ≤ MAX_SAFE_INTEGER ∧
  snap_remainingMs
    (structuredContent
       (get_timer (1000 + 5200) (start_timer five_seconds 1000 1000 initial_world).1).2)
    = 0 ∧
  snap_isRunning
    (structuredContent
       (get_timer (1000 + 5200) (start_timer five_seconds 1000 1000 initial_world).1).2)
    = true.
Proof.
  assert (Hm : 0 ≤ arg_or_zero minutes five_seconds) by (vm_compute; discriminate).
  assert (Hs : 0 ≤ arg_or_zero seconds five_seconds) by (vm_compute; discriminate).
  assert (Hd : 0 < requestedMs five_seconds ≤ MAX_SAFE_INTEGER)
    by (split; [reflexivity|vm_compute; discriminate]).
  assert (Hn : 1000 ≠ 0) by discriminate.
  assert (He : 0 ≤ 5200 ≤ MAX_SAFE_INTEGER)
    by (split; vm_compute; discriminate).
  destruct (countdown_after_start five_seconds 1000 1000 5200 initial_world
              Hm Hs Hd Hn He)
    as (_ & _ & Hrun & _ & _ & Hover & _).
  split; [exact Hm|]. split; [exact Hs|]. split; [exact Hd|].
  split; [exact Hn|]. split; [exact He|].
  split; [exact (proj1 (Hover ltac:(vm_compute; discriminate)))|exact Hrun].
Defined.

(** X9. The text of a reply tells whether the call changed the state:
    [start_timer] leaves the state as it was exactly when it answers
    "Provide a duration greater than 0.", [stop_timer] exactly when it
    answers "Timer is not running."; [edit_timer] answers the former only
    when it left the state as it was, and "Timer updated." otherwise;
    [get_timer] sends no text. *)
Theorem reply_text_tells_outcome (args : option Args) (now now_r : Z) (w : World) :
  ((start_timer args now now_r w).1 = w
     ↔ content (start_timer args now now_r w).2 = [invalid_duration_msg]) ∧
  ((start_timer args now now_r w).1 ≠ w
     ↔ content (start_timer args now now_r w).2 = ["Timer started."]) ∧
  ((stop_timer now now_r w).1 = w
     ↔ content (stop_timer now now_r w).2 = [not_running_msg]) ∧
  ((stop_timer now now_r w).1 ≠ w
     ↔ content (stop_timer now now_r w).2 = ["Timer stopped."]) ∧
  (content (edit_timer args now now_r w).2 = [invalid_duration_msg]
     → (edit_timer args now now_r w).1 = w) ∧
  (content (edit_timer args now now_r w).2 = [invalid_duration_msg] ∨
   content (edit_timer args now now_r w).2 = ["Timer updated."]) ∧
  content (get_timer now w).2 = [].
Proof.
  assert (Hstart : 0 < requestedMs args → (start_timer args now now_r w).1 ≠ w).
  { intros Hd Heq. apply (f_equal (λ x, nextHandle (sched x))) in Heq.
    rewrite start_timer_ok in Heq by done. simpl in Heq. lia. }
  assert (Hstop : isRunning (timer w) = true → (stop_timer now now_r w).1 ≠ w).
  { intros Hr Heq. apply (f_equal (λ x, isRunning (timer x))) in Heq.
    rewrite stop_timer_running in Heq by done. simpl in Heq. congruence. }
  split; [|split; [|split; [|split; [|split; [|split]]]]].
  - destruct (Z.leb_spec (requestedMs args) 0) as [Hle|Hlt].
    + by rewrite start_timer_rejected.
    + specialize (Hstart Hlt). rewrite start_timer_reply by done.
      split; [done|discriminate].
  - destruct (Z.leb_spec (requestedMs args) 0) as [Hle|Hlt].
    + rewrite start_timer_rejected by done. split; [done|discriminate].
    + specialize (Hstart Hlt). by rewrite start_timer_reply.
  - destruct (isRunning (timer w)) eqn:Hr.
    + specialize (Hstop eq_refl). split; [done|].
      unfold stop_timer. rewrite Hr. discriminate.
    + by rewrite stop_timer_idle.
  - destruct (isRunning (timer w)) eqn:Hr.
    + specialize (Hstop eq_refl). split; [|done].
      intros _. unfold stop_timer. by rewrite Hr.
    + rewrite stop_timer_idle by done. split; [done|discriminate].
  - destruct (Z.leb_spec (requestedMs args) 0) as [Hle|Hlt].
    + by rewrite edit_timer_rejected.
    + rewrite edit_timer_reply by done. discriminate.
  - destruct (Z.leb_spec (requestedMs args) 0) as [Hle|Hlt].
    + left. by rewrite edit_timer_rejected.
    + right. by rewrite edit_timer_reply.
  - done.
Qed.

Lemma reply_text_tells_outcome_witness :
  content (edit_timer zero_duration 1500 1500 running_world).2
    = [invalid_duration_msg] ∧
  (edit_timer zero_duration 1500 1500 running_world).1 = running_world ∧
  (start_timer five_seconds 1500 1500 running_world).1 ≠ running_world.
Proof.
  destruct (reply_text_tells_outcome zero_duration 1500 1500 running_world)
    as (_ & _ & _ & _ & Hedit & _).
  destruct (reply_text_tells_outcome five_seconds 1500 1500 running_world)
    as (_ & Hstart & _).
  split; [reflexivity|]. split; [exact (Hedit eq_refl)|].
  exact (proj2 Hstart eq_refl).
Defined.

(** ** Properties of the HTTP request listener *)

Ltac listener_cases m p :=
  destruct (String.eqb_spec p MCP_PATH);
  destruct (String.eqb_spec p "/");
  destruct (String.eqb_spec m "OPTIONS");
  destruct (String.eqb_spec m "GET");
  destruct (String.eqb_spec m "POST");
  destruct (String.eqb_spec m "DELETE");
  destruct (String.eqb_spec m EmptyString);
  subst; try discriminate; simpl.

Lemma requestListener_answer req p tr :
  truthy_str (req_url req) = true →
  requestListener req (Some p) tr =
    if method_is (req_method req) "OPTIONS" && String.eqb p MCP_PATH then
      Some [WriteHead 204 preflight_headers; ResEnd None]
    else if method_is (req_method req) "GET" && String.eqb p "/" then
      Some [WriteHead 200 [("content-type", "text/plain")];
            ResEnd (Some "Pomodoro MCP server")]
    else if String.eqb p MCP_PATH && truthy_str (req_method req)
            && set_has MCP_METHODS (req_method req) then
      Some ([SetHeader "Access-Control-Allow-Origin" "*";
             SetHeader "Access-Control-Expose-Headers" "Mcp-Session-Id";
             OnClose;
             HandleRequest] ++
            match tr with
            | Handled => []
            | Threw headersSent =>
                if negb headersSent
                then [WriteHead 500 []; ResEnd (Some "Internal server error")]
                else []
            end)
    else
      Some [WriteHead 404 []; ResEnd (Some "Not Found")].
Proof. intros Hu. unfold requestListener. by rewrite Hu. Qed.

(** X10. The listener hands a request to the MCP transport exactly when the
    request has a URL, the path is "/mcp" and the method is POST, GET or
    DELETE. *)
Theorem mcp_dispatch_iff (req : Request) (pathname : option string)
    (tr : TransportResult) (ops : list ResOp) :
  requestListener req pathname tr = Some ops →
  (existsb is_HandleRequest ops = true
   ↔ truthy_str (req_url req) = true ∧
     pathname = Some MCP_PATH ∧
     (req_method req = Some "POST" ∨ req_method req = Some "GET" ∨
      req_method req = Some "DELETE")).
Proof.
  destruct (truthy_str (req_url req)) eqn:Hu.
  - destruct pathname as [p|].
    + rewrite requestListener_answer by done.
      unfold method_is, set_has, MCP_METHODS.
      destruct (req_method req) as [m|]; simpl.
      * listener_cases m p; intros [= <-]; simpl;
          (split; [intros; try discriminate|intros (_ & Hp & Hm)]);
          try (split; [done|]); try (split; [done|]);
          try tauto; try congruence;
          try (destruct tr as [|[]]; simpl; done);
          try (injection Hp as Hp; congruence);
          try (destruct Hm as [Hm|[Hm|Hm]]; congruence).
      * destruct (String.eqb p MCP_PATH); simpl; intros [= <-]; simpl;
          (split; [discriminate|]);
          intros (_ & _ & [Hm|[Hm|Hm]]); discriminate.
    + unfold requestListener. rewrite Hu. discriminate.
  - unfold requestListener. rewrite Hu. simpl. intros [= <-]. simpl.
    split; [discriminate|]. intros (Hf & _). discriminate.
Qed.

Lemma mcp_dispatch_iff_witness :
  requestListener mcp_post (Some "/mcp") Handled
    = Some [SetHeader "Access-Control-Allow-Origin" "*";
            SetHeader "Access-Control-Expose-Headers" "Mcp-Session-Id";
            OnClose; HandleRequest] ∧
  truthy_str (req_url mcp_post) = true ∧
  (req_method mcp_post = Some "POST" ∨ req_method mcp_post = Some "GET" ∨
   req_method mcp_post = Some "DELETE").
Proof.
  assert (Hl : requestListener mcp_post (Some "/mcp") Handled
               = Some [SetHeader "Access-Control-Allow-Origin" "*";
                       SetHeader "Access-Control-Expose-Headers" "Mcp-Session-Id";
                       OnClose; HandleRequest]) by reflexivity.
  destruct (proj1 (mcp_dispatch_iff mcp_post (Some "/mcp") Handled _ Hl) eq_refl)
    as (Hu & _ & Hm).
  split; [exact Hl|]. split; [exact Hu|exact Hm].
Defined.

(** X11. The listener makes no call on [res] at all exactly when [req.url]
    is non-empty and [new URL] throws.  In every other case, however the
    transport ends, it calls [writeHead] at most once and [end] as often as
    [writeHead]; a request it does not hand to the transport gets one
    complete response, with status 400, 204, 200 or 404; a request it hands
    over gets the listener's own response (status 500) exactly when the
    transport threw before the headers were sent. *)
Theorem listener_answers_once (req : Request) (pathname : option string)
    (tr : TransportResult) :
  (requestListener req pathname tr = None
     ↔ truthy_str (req_url req) = true ∧ pathname = None) ∧
  ∀ ops, requestListener req pathname tr = Some ops →
    (count_ops is_WriteHead ops ≤ 1)%nat ∧
    count_ops is_ResEnd ops = count_ops is_WriteHead ops ∧
    (existsb is_HandleRequest ops = false →
       ∃ status headers body,
         ops = [WriteHead status headers; ResEnd body] ∧
         (status = 400 ∨ status = 204 ∨ status = 200 ∨ status = 404)) ∧
    (existsb is_HandleRequest ops = true →
       (count_ops is_WriteHead ops = 1%nat ↔ tr = Threw false) ∧
       (tr = Threw false →
          ∃ before, ops = before ++ [WriteHead 500 [];
                                     ResEnd (Some "Internal server error")])).
Proof.
  split.
  { unfold requestListener.
    destruct (truthy_str (req_url req)); simpl.
    - destruct pathname as [p|]; [|done].
      split; [|by intros [_ ?]].
      repeat case_match; discriminate.
    - split; [discriminate|by intros [? _]]. }
  intros ops. unfold requestListener.
  destruct (truthy_str (req_url req)); simpl; cycle 1.
  { intros [= <-]. unfold count_ops. simpl.
    split; [lia|]. split; [done|]. split; [|discriminate].
    intros _. eexists _, _, _. split; [done|]. by left. }
  destruct pathname as [p|]; [|discriminate].
  destruct (method_is (req_method req) "OPTIONS" && String.eqb p MCP_PATH).
  { intros [= <-]. unfold count_ops. simpl.
    split; [lia|]. split; [done|]. split; [|discriminate].
    intros _. eexists _, _, _. split; [done|]. right. by left. }
  destruct (method_is (req_method req) "GET" && String.eqb p "/").
  { intros [= <-]. unfold count_ops. simpl.
    split; [lia|]. split; [done|]. split; [|discriminate].
    intros _. eexists _, _, _. split; [done|]. right. right. by left. }
  destruct (String.eqb p MCP_PATH && truthy_str (req_method req)
            && set_has MCP_METHODS (req_method req)).
  - intros [= <-]. unfold count_ops.
    destruct tr as [|[]]; simpl.
    + split; [lia|]. split; [done|]. split; [discriminate|].
      intros _. split; [split; discriminate|discriminate].
    + split; [lia|]. split; [done|]. split; [discriminate|].
      intros _. split; [split; discriminate|discriminate].
    + split; [lia|]. split; [done|]. split; [discriminate|].
      intros _. split; [done|]. intros _.
      by exists [SetHeader "Access-Control-Allow-Origin" "*";
                 SetHeader "Access-Control-Expose-Headers" "Mcp-Session-Id";
                 OnClose; HandleRequest].
  - intros [= <-]. unfold count_ops. simpl.
    split; [lia|]. split; [done|]. split; [|discriminate].
    intros _. eexists _, _, _. split; [done|]. by repeat right.
Qed.

Lemma listener_answers_once_witness :
  requestListener unparsable_request None Handled = None ∧
  requestListener mcp_post (Some "/mcp") (Threw false)
    = Some [SetHeader "Access-Control-Allow-Origin" "*";
            SetHeader "Access-Control-Expose-Headers" "Mcp-Session-Id";
            OnClose; HandleRequest;
            WriteHead 500 []; ResEnd (Some "Internal server error")] ∧
  count_ops is_WriteHead
    [SetHeader "Access-Control-Allow-Origin" "*";
     SetHeader "Access-Control-Expose-Headers" "Mcp-Session-Id";
     OnClose; HandleRequest;
     WriteHead 500 []; ResEnd (Some "Internal server error")] = 1%nat.
Proof.
  assert (Hl : requestListener mcp_post (Some "/mcp") (Threw false)
    = Some [SetHeader "Access-Control-Allow-Origin" "*";
            SetHeader "Access-Control-Expose-Headers" "Mcp-Session-Id";
            OnClose; HandleRequest;
            WriteHead 500 []; ResEnd (Some "Internal server error")])
    by reflexivity.
  destruct (listener_answers_once unparsable_request None Handled)
    as (Hnone & _).
  destruct (listener_answers_once mcp_post (Some "/mcp") (Threw false))
    as (_ & Hops).
  destruct (Hops _ Hl) as (_ & _ & _ & Hmcp).
  split; [exact (proj2 Hnone (conj eq_refl eq_refl))|].
  split; [exact Hl|].
  exact (proj2 (proj1 (Hmcp eq_refl)) eq_refl).
Defined.

(** X12. A request without a URL (missing or empty) is answered 400
    "Missing URL" before anything else is looked at.  A request with a URL
    is answered 404 "Not Found" when its path is neither "/" nor "/mcp",
    when its path is "/" and its method is not GET, and when its path is
    "/mcp" and its method is none of OPTIONS, POST, GET, DELETE. *)
Theorem unknown_route_not_found (req : Request) (p : string) (tr : TransportResult) :
  (truthy_str (req_url req) = false →
     ∀ pathname,
       requestListener req pathname tr
         = Some [WriteHead 400 []; ResEnd (Some "Missing URL")]) ∧
  (truthy_str (req_url req) = true →
     (p ≠ "/" → p ≠ MCP_PATH ∨
                 (req_method req ≠ Some "OPTIONS" ∧ req_method req ≠ Some "POST" ∧
                  req_method req ≠ Some "GET" ∧ req_method req ≠ Some "DELETE") →
        requestListener req (Some p) tr
          = Some [WriteHead 404 []; ResEnd (Some "Not Found")]) ∧
     (p = "/" → req_method req ≠ Some "GET" →
        requestListener req (Some p) tr
          = Some [WriteHead 404 []; ResEnd (Some "Not Found")])).
Proof.
  split.
  - intros Hu pathname. unfold requestListener. by rewrite Hu.
  - intros Hu. rewrite requestListener_answer by done.
    unfold method_is, set_has, MCP_METHODS.
    destruct (req_method req) as [m|]; simpl.
    + listener_cases m p; split; intros; try done; try tauto;
        try (exfalso; naive_solver).
    + destruct (String.eqb p MCP_PATH); simpl; by split.
Qed.

Lemma unknown_route_not_found_witness :
  truthy_str (req_url mcp_put) = true ∧
  requestListener mcp_put (Some "/mcp") Handled
    = Some [WriteHead 404 []; ResEnd (Some "Not Found")].
Proof.
  assert (Hu : truthy_str (req_url mcp_put) = true) by reflexivity.
  destruct (unknown_route_not_found mcp_put "/mcp" Handled) as (_ & Hroutes).
  destruct (Hroutes Hu) as (Hmcp & _).
  split; [exact Hu|].
  apply Hmcp; [discriminate|].
  right. repeat split; discriminate.
Defined.

End Pomodoro.
